(** * SalmonRun: the statistics extractor of [stat.py]

    A shallow embedding of [stat.py] (the scraper of salmon-run counts) and
    the properties of its extraction and storage steps.

    Modelling conventions.
    - A Python [str] is a [string]; the scraped chart script is ASCII text.
    - A Python [int] is a [Z] (unbounded).
    - [re.search] is modelled by a small backtracking matcher over the
      constructs the four patterns of the program use (literal characters,
      [.], a character range, greedy [*] and [+] on one character set,
      capture groups, concatenation), with Python's priorities: leftmost
      start, greedy repetition tried longest first.
    - [datetime.date] follows its documented contract: arguments outside
      the documented ranges raise [ValueError].  (The interpreter's limit on
      the number of digits [int] converts, and the platform-integer range of
      the C implementation of [datetime], are not part of the model.)
    - [traceback.print_exc] appends the caught exception to a trace.
    - The file system is a finite map from path to file content; directory
      creation and operating-system failures are outside the model. *)

From Stdlib Require Import ZArith Ascii String List Lia Bool.
From Stdlib Require Import DecimalString DecimalPos.
From stdpp Require Import gmap strings list.

Local Open Scope Z_scope.

(* ===================================================================== *)
(** ** Text: the [str] operations the program uses                        *)
(* ===================================================================== *)

Module Str.

Definition newline : ascii := "010"%char.
Definition tab : ascii := "009"%char.
Definition cr : ascii := "013"%char.

(** [sep.join(parts)] *)
Fixpoint join (sep : string) (parts : list string) : string :=
  match parts with
  | [] => ""
  | [p] => p
  | p :: ps => p +:+ sep +:+ join sep ps
  end.

(** [s.startswith(p)] *)
Fixpoint startswith (p s : string) : bool :=
  match p, s with
  | EmptyString, _ => true
  | String a p', String b s' => if Ascii.eqb a b then startswith p' s' else false
  | String _ _, EmptyString => false
  end.

(** The scan of [s.split(sep)] for a non-empty [sep]: [skip] counts the
    characters of a separator occurrence still to be passed over. *)
Fixpoint split_scan (sep : string) (skip : nat) (s : string) : list string :=
  match s with
  | EmptyString => [""]
  | String c s' =>
      match skip with
      | S k => split_scan sep k s'
      | O =>
          if startswith sep s
          then "" :: split_scan sep (Nat.pred (String.length sep)) s'
          else match split_scan sep O s' with
               | p :: ps => String c p :: ps
               | [] => [String c ""]
               end
      end
  end.

(** [s.split(sep)], [sep] non-empty: pieces between the non-overlapping
    occurrences of [sep], found left to right. *)
Definition split (sep s : string) : list string := split_scan sep O s.

(** [s.replace(old, new)], [old] non-empty. *)
Definition replace (old new s : string) : string := join new (split old s).

(** [c in s] for a character. *)
Fixpoint mem (c : ascii) (s : string) : bool :=
  match s with
  | EmptyString => false
  | String a s' => Ascii.eqb a c || mem c s'
  end.

(** [s.find(p)]: index of the first occurrence of [p] in [s]. *)
Fixpoint find (p s : string) : option nat :=
  if startswith p s then Some O
  else match s with
       | EmptyString => None
       | String _ s' => option_map S (find p s')
       end.



(** [s[n:]] *)
Fixpoint drop (n : nat) (s : string) : string :=
  match n, s with
  | S k, String _ s' => drop k s'
  | _, _ => s
  end.

(** [s] without the occurrences of the character [c]. *)
Fixpoint remove (c : ascii) (s : string) : string :=
  match s with
  | EmptyString => ""
  | String a s' => if Ascii.eqb a c then remove c s' else String a (remove c s')
  end.


End Str.

(* ===================================================================== *)
(** ** [re]: the matcher behind [re.search]                               *)
(* ===================================================================== *)

Module Re.

(** One-character matchers. *)
Inductive charset : Type :=
| Dot                       (* [.]: any character but the newline *)
| Range (lo hi : ascii)     (* [[lo-hi]] *)
| Chr (c : ascii).          (* the character itself *)

Definition in_charset (cs : charset) (c : ascii) : bool :=
  match cs with
  | Dot => negb (Ascii.eqb c Str.newline)
  | Range lo hi => (nat_of_ascii lo <=? nat_of_ascii c)%nat
                   && (nat_of_ascii c <=? nat_of_ascii hi)%nat
  | Chr a => Ascii.eqb a c
  end.

Inductive regex : Type :=
| Eps                       (* the empty pattern *)
| One (cs : charset)
| Star (cs : charset)       (* greedy [cs*] *)
| Plus (cs : charset)       (* greedy [cs+] *)
| Group (r : regex)         (* [(r)] *)
| Seq (r1 r2 : regex).

(** A way of matching at the head of a subject: the text consumed, the
    groups captured (in the order of their opening parenthesis) and the
    rest of the subject. *)
Record way := Way { matched : string; captured : list string; rest : string }.

Definition extend (c : ascii) (w : way) : way :=
  Way (String c (matched w)) (captured w) (rest w).

Definition then_way (w1 w2 : way) : way :=
  Way (matched w1 +:+ matched w2) (captured w1 ++ captured w2) (rest w2).

(** All the ways [cs*] matches at the head of [s], longest first. *)
Fixpoint star_ways (cs : charset) (s : string) : list way :=
  match s with
  | String c s' =>
      if in_charset cs c
      then map (extend c) (star_ways cs s') ++ [Way "" [] s]
      else [Way "" [] s]
  | EmptyString => [Way "" [] s]
  end.

(** All the ways [r] matches at the head of [s], in the order a
    backtracking matcher tries them. *)
Fixpoint ways (r : regex) (s : string) : list way :=
  match r with
  | Eps => [Way "" [] s]
  | One cs =>
      match s with
      | String c s' => if in_charset cs c then [Way (String c "") [] s'] else []
      | EmptyString => []
      end
  | Star cs => star_ways cs s
  | Plus cs =>
      match s with
      | String c s' =>
          if in_charset cs c then map (extend c) (star_ways cs s') else []
      | EmptyString => []
      end
  | Group r1 =>
      map (fun w => Way (matched w) (matched w :: captured w) (rest w)) (ways r1 s)
  | Seq r1 r2 =>
      flat_map (fun w1 => map (then_way w1) (ways r2 (rest w1))) (ways r1 s)
  end.

(** A literal piece of a pattern. *)
Fixpoint lit (p : string) : regex :=
  match p with
  | EmptyString => Eps
  | String c p' => Seq (One (Chr c)) (lit p')
  end.

(** The match object: [start()], [group(0)] and the numbered groups. *)
Record match_object := Match { start : nat; group0 : string; groups : list string }.

(** [m.group(i)] *)
Definition group (m : match_object) (i : nat) : string :=
  match i with
  | O => group0 m
  | S j => nth j (groups m) ""%string
  end.

(** [re.search]: the first way at the leftmost position that has one. *)
Fixpoint search_from (pos : nat) (r : regex) (s : string) : option match_object :=
  match ways r s with
  | w :: _ => Some (Match pos (matched w) (captured w))
  | [] =>
      match s with
      | EmptyString => None
      | String _ s' => search_from (S pos) r s'
      end
  end.

Definition search (r : regex) (s : string) : option match_object :=
  search_from O r s.

(** [a] put in front of what a way consumed. *)
Definition prepend (a : string) (w : way) : way :=
  Way (a +:+ matched w) (captured w) (rest w).

Definition all_in (cs : charset) (s : string) : Prop :=
  forall c, Str.mem c s = true -> in_charset cs c = true.

(** [s] is empty or starts outside [cs]. *)
Definition stops (cs : charset) (s : string) : Prop :=
  match s with
  | EmptyString => True
  | String c _ => in_charset cs c = false
  end.

End Re.

(* ===================================================================== *)
(** ** The interpreter: exceptions, output streams, files                 *)
(* ===================================================================== *)

Inductive exn : Type := ValueError | AttributeError | RequestError.

Inductive result (A : Type) : Type :=
| Ok (a : A)
| Raise (e : exn).
Arguments Ok {A} a.
Arguments Raise {A} e.

(** What a run can observe and change: the files under their paths, the
    lines printed on standard output, and the exceptions whose traceback
    [traceback.print_exc] has printed. *)
Record world : Type := World {
  files : gmap string string;
  stdout : list string;
  stderr : list exn
}.

(** A computation changes the world and returns or raises; what it did
    to the world before raising stays done. *)
Definition M (A : Type) : Type := world -> result A * world.

Definition ret {A} (a : A) : M A := fun w => (Ok a, w).
Definition raise {A} (e : exn) : M A := fun w => (Raise e, w).
Definition bind {A B} (m : M A) (f : A -> M B) : M B :=
  fun w => match m w with
           | (Ok a, w') => f a w'
           | (Raise e, w') => (Raise e, w')
           end.

Notation "'do' x <- m ; k" := (bind m (fun x => k))
  (at level 10, x name, m at level 100, k at level 200).
Notation "'run' m ; k" := (bind m (fun _ => k))
  (at level 10, m at level 100, k at level 200).

(** [try: body  except ValueError: handler] *)
Definition try_except_ValueError {A} (body handler : M A) : M A :=
  fun w => match body w with
           | (Raise ValueError, w') => handler w'
           | r => r
           end.

(** [for x in xs: acc = body(x, acc)] *)
Fixpoint for_each {A S} (xs : list A) (body : A -> S -> M S) (acc : S) : M S :=
  match xs with
  | [] => ret acc
  | x :: xs' => do acc' <- body x acc; for_each xs' body acc'
  end.

(** [traceback.print_exc()] inside the handler of [e]. *)
Definition print_exc (e : exn) : M unit :=
  fun w => (Ok tt, World (files w) (stdout w) (stderr w ++ [e])).




(* ===================================================================== *)
(** ** Built-ins: [int], [str], [datetime.date], [dict]                   *)
(* ===================================================================== *)

Module Py.

(** The value of a decimal digit, from its character code. *)
Definition digit_value (c : ascii) : option Z :=
  let code := Z.of_nat (nat_of_ascii c) in
  if (48 <=? code) && (code <=? 57) then Some (code - 48) else None.

(** The white space [int] strips: tab, line feed, vertical tab, form
    feed, carriage return and the space. *)
Definition is_space (c : ascii) : bool :=
  let code := nat_of_ascii c in
  ((9 <=? code)%nat && (code <=? 13)%nat) || (code =? 32)%nat.

Fixpoint lstrip (s : string) : string :=
  match s with
  | String c s' => if is_space c then lstrip s' else s
  | EmptyString => s
  end.

Fixpoint rstrip (s : string) : string :=
  match s with
  | String c s' =>
      match rstrip s' with
      | EmptyString => if is_space c then "" else String c ""
      | r => String c r
      end
  | EmptyString => ""
  end.

(** The digits of an [int] literal: decimal digits, a single underscore
    allowed between two of them. [after_digit] tells whether the previous
    character was a digit. *)
Fixpoint int_digits (acc : Z) (after_digit : bool) (s : string) : option Z :=
  match s with
  | EmptyString => if after_digit then Some acc else None
  | String c s' =>
      match digit_value c with
      | Some d => int_digits (10 * acc + d) true s'
      | None =>
          if Ascii.eqb c "_" && after_digit then int_digits acc false s' else None
      end
  end.

(** [int(s)] for a [str]; [None] stands for [ValueError]. *)
Definition int_of_str (s : string) : option Z :=
  match rstrip (lstrip s) with
  | String "+" t => int_digits 0 false t
  | String "-" t => option_map Z.opp (int_digits 0 false t)
  | t => int_digits 0 false t
  end.




(** *** [datetime.date] *)

Record date : Type := Date { year : Z; month : Z; day : Z }.

Definition is_leap (y : Z) : bool :=
  (y mod 4 =? 0) && (negb (y mod 100 =? 0) || (y mod 400 =? 0)).

Definition days_in_month (y m : Z) : Z :=
  if m =? 2 then (if is_leap y then 29 else 28)
  else if (m =? 4) || (m =? 6) || (m =? 9) || (m =? 11) then 30
  else 31.

Definition MINYEAR : Z := 1.
Definition MAXYEAR : Z := 9999.

Definition valid_date (y m d : Z) : bool :=
  (MINYEAR <=? y) && (y <=? MAXYEAR)
  && (1 <=? m) && (m <=? 12)
  && (1 <=? d) && (d <=? days_in_month y m).

(** [datetime.date(y, m, d)]; [None] stands for [ValueError]. *)
Definition new_date (y m d : Z) : option date :=
  if valid_date y m d then Some (Date y m d) else None.


(** *** [dict] with [str] keys

    A dictionary keeps its keys in the order of their first insertion;
    assigning to a key already there changes its value in place. *)

Definition dict (V : Type) : Type := list (string * V).

Fixpoint dict_set {V} (k : string) (v : V) (d : dict V) : dict V :=
  match d with
  | [] => [(k, v)]
  | (k', v') :: d' =>
      if String.eqb k k' then (k, v) :: d' else (k', v') :: dict_set k v d'
  end.


Definition dict_keys {V} (d : dict V) : list string := map fst d.

End Py.

(** [int(s)] as a computation. *)
Definition int (s : string) : M Z :=
  match Py.int_of_str s with
  | Some v => ret v
  | None => raise ValueError
  end.

(** [datetime.date(y, m, d)] as a computation. *)
Definition datetime_date (y m d : Z) : M Py.date :=
  match Py.new_date y m d with
  | Some v => ret v
  | None => raise ValueError
  end.

(* ===================================================================== *)
(** ** [stat.py]                                                          *)
(* ===================================================================== *)

Import Re.

Infix "^^" := Seq (at level 60, right associativity).

Definition digit : charset := Range "0" "9".

Definition RIVERS : list string :=
  [ "byskealven"; "kalixalven"; "linaalven"; "pitealven-fallfors";
    "pitealven-sikfors"; "ricklean"; "ranealven"; "tornealven";
    "aby-alv"; "angesan" ].

(** The dictionary [{'dates': [...], 'counts': [...]}]. *)
Record series : Type := Series { dates : list Py.date; counts : list Z }.

(** The pattern of [parse_year]: the text [name:'], a group of one or
    more digits, the text [',]. *)
Definition year_re : regex :=
  lit "name:'" ^^ Group (Plus digit) ^^ lit "',".

(** The pattern of [parse_data]: the text [data:] and an opening square
    bracket, a group of any number of [.], a closing square bracket. *)
Definition data_re : regex :=
  lit "data:[" ^^ Group (Star Dot) ^^ lit "]".

(** The pattern of a point: [Date.UTC] and an opening parenthesis, three
    groups of one or more digits separated by commas, a closing
    parenthesis, a comma, a fourth group of one or more digits.  The dot
    of [Date.UTC] is not escaped in the pattern: it stands for any
    character but the newline. *)
Definition point_re : regex :=
  lit "Date" ^^ One Dot ^^ lit "UTC(" ^^ Group (Plus digit) ^^ lit "," ^^
  Group (Plus digit) ^^ lit "," ^^ Group (Plus digit) ^^ lit ")," ^^
  Group (Plus digit).

(** The pattern of the series region: the text [series:] and an opening
    square bracket, a group of any number of [.], a closing square
    bracket. *)
Definition series_re : regex :=
  lit "series:[" ^^ Group (Star Dot) ^^ lit "]".

(** [parse_year(string)]; [text] is its argument [string]. *)
Definition parse_year (text : string) : option string :=
  match search year_re text with
  | Some m => Some (group m 1)
  | None => None
  end.

(** The body of the loop of [parse_data] over the raw elements. *)
Definition parse_element (year element : string) (data : series) : M series :=
  match search point_re element with
  | Some m =>
      do month <- (do v <- int (group m 2); ret (v + 1));
      do day <- int (group m 3);
      do count <- int (group m 4);
      try_except_ValueError
        (do y <- int year;
         do d <- datetime_date y month day;
         let data1 := Series (dates data ++ [d]) (counts data) in
         let data2 := Series (dates data1) (counts data1 ++ [count]) in
         ret data2)
        (run print_exc ValueError; ret data)
  | None => ret data
  end.

(** The raw elements [parse_data] loops over. *)
Definition raw_elements (inner : string) : list string :=
  Str.split "]," (Str.replace "[" "" inner).

(** [parse_data(string, year)]; [text] is its argument [string]. *)
Definition parse_data (text year : string) : M series :=
  let data := Series [] [] in
  match search data_re text with
  | Some m => for_each (raw_elements (group m 1)) (parse_element year) data
  | None => ret data
  end.

(** Truth value of an optional [str]: [None] and the empty string are
    false. *)
Definition truthy (o : option string) : bool :=
  match o with
  | Some (String _ _) => true
  | _ => false
  end.

(** The body of the loop over the raw groups of one river. *)
Definition parse_group (group : string) (years : Py.dict series) : M (Py.dict series) :=
  let year := parse_year group in
  if truthy year then
    match year with
    | Some y => do data <- parse_data group y; ret (Py.dict_set y data years)
    | None => ret years
    end
  else ret years.

(** The script with every newline, carriage return, tab and space
    removed, in this order. *)
Definition single_line (script : string) : string :=
  Str.replace " " ""
    (Str.replace (String Str.tab "") ""
       (Str.replace (String Str.cr "") ""
          (Str.replace (String Str.newline "") "" script))).

(** [re.search(...).group(1)]: [AttributeError] when nothing matches. *)
Definition series_region (script_single_line : string) : M string :=
  match search series_re script_single_line with
  | Some m => ret (group m 1)
  | None => raise AttributeError
  end.

Definition raw_groups (raw : string) : list string :=
  Str.split "}," (Str.replace "{" "" raw).

Section Program.

(** The text of the chart script of a river's page,
    [soup.find("script", string=...).string] after the request; it raises
    when the request fails or the page has no such script. *)
Variable page_script : string -> M string.

(** [str(args.output / name)] *)
Variable output_file : string -> string.











End Program.

(* ===================================================================== *)
(** ** Notions used to state the properties                               *)
(* ===================================================================== *)

(** A non-empty run of ASCII digits. *)
Definition digits1 (s : string) : Prop := s <> "" /\ Re.all_in digit s.

(** The point an element contributes to the series of [year]: its date
    and its count, when the element matches the point pattern and the
    date is a valid calendar date. *)
Definition point_of_element (year element : string) : option (Py.date * Z) :=
  match search point_re element with
  | Some m =>
      match Py.int_of_str (group m 2), Py.int_of_str (group m 3),
            Py.int_of_str (group m 4), Py.int_of_str year with
      | Some mo, Some d, Some c, Some y =>
          option_map (fun dt => (dt, c)) (Py.new_date y (mo + 1) d)
      | _, _, _, _ => None
      end
  | None => None
  end.

(** An element that matches the point pattern and contributes no point. *)
Definition discarded (year element : string) : bool :=
  match search point_re element, point_of_element year element with
  | Some _, None => true
  | _, _ => false
  end.

(** The elements of the data array of a fragment, in the order of the
    text. *)
Definition elements_of (text : string) : list string :=
  match search data_re text with
  | Some m => raw_elements (group m 1)
  | None => []
  end.

(** [s] is a non-empty run of ASCII digits. *)
Fixpoint all_digits (s : string) : bool :=
  match s with
  | EmptyString => true
  | String c s' => in_charset digit c && all_digits s'
  end.

Definition is_digits (s : string) : bool :=
  match s with
  | EmptyString => false
  | String _ _ => all_digits s
  end.

Definition starts_with_digit (s : string) : bool :=
  match s with
  | EmptyString => false
  | String c _ => in_charset digit c
  end.

(** The series of a fragment for [year]: the points of its elements, in
    the order of the elements. *)
Definition series_of (text year : string) : series :=
  Series (omap (point_of_element year) (elements_of text)).*1
         (omap (point_of_element year) (elements_of text)).*2.

(** The mapping from year to series after the fragments [groups], started
    from [years]. *)
Fixpoint years_from (groups : list string) (years : Py.dict series) : Py.dict series :=
  match groups with
  | [] => years
  | g :: gs =>
      years_from gs
        match parse_year g with
        | Some y => Py.dict_set y (series_of g y) years
        | None => years
        end
  end.

(** The world after [n] more tracebacks of a [ValueError]. *)
Definition traced (n : nat) (w : world) : world :=
  World (files w) (stdout w) (stderr w ++ replicate n ValueError).






(** The empty world: no file, nothing printed. *)
Definition w0 : world := World ∅ [] [].


(** *** Notions for the further properties *)

(** [s] with only the characters [f] accepts, in their order. *)
Fixpoint keep (f : ascii -> bool) (s : string) : string :=
  match s with
  | EmptyString => ""
  | String c s' => if f c then String c (keep f s') else keep f s'
  end.

(** The four characters [single_line] removes. *)
Definition is_blank (c : ascii) : bool :=
  Ascii.eqb c Str.newline || Ascii.eqb c Str.cr
  || Ascii.eqb c Str.tab || Ascii.eqb c " ".


(** No character of [s] is a digit. *)
Fixpoint digit_free (s : string) : bool :=
  match s with
  | EmptyString => true
  | String c s' => negb (in_charset digit c) && digit_free s'
  end.











(* ===================================================================== *)
(** ** Facts about text                                                   *)
(* ===================================================================== *)

Module StrFacts.
Import Str.

Lemma app_cons (c : ascii) (s t : string) :
  String c s +:+ t = String c (s +:+ t).
Proof. reflexivity. Qed.

Lemma app_nil_l (s : string) : "" +:+ s = s.
Proof. reflexivity. Qed.

Lemma app_nil_r (s : string) : s +:+ "" = s.
Proof. induction s as [|c s IH]; [done|]. by rewrite app_cons, IH. Qed.

Lemma app_assoc (s t u : string) : (s +:+ t) +:+ u = s +:+ (t +:+ u).
Proof. induction s as [|c s IH]; [done|]. by rewrite !app_cons, IH. Qed.

Lemma app_length (s t : string) :
  String.length (s +:+ t) = (String.length s + String.length t)%nat.
Proof. induction s as [|c s IH]; [done|]. rewrite app_cons. simpl. by rewrite IH. Qed.

Lemma startswith_app (p s : string) : startswith p (p +:+ s) = true.
Proof.
  induction p as [|c p IH]; [done|].
  rewrite app_cons. simpl. by rewrite Ascii.eqb_refl.
Qed.

Lemma startswith_inv (p s : string) :
  startswith p s = true -> exists t, s = p +:+ t.
Proof.
  revert s. induction p as [|c p IH]; intros s H.
  - by exists s.
  - destruct s as [|a s]; [done|]. simpl in H.
    destruct (Ascii.eqb_spec c a) as [->|]; [|done].
    destruct (IH _ H) as [t ->]. by exists t.
Qed.

Lemma mem_app (c : ascii) (s t : string) :
  mem c (s +:+ t) = mem c s || mem c t.
Proof.
  induction s as [|a s IH]; [done|].
  rewrite app_cons. simpl. rewrite IH. by rewrite orb_assoc.
Qed.

(** A character absent from a text starts none of its suffixes. *)
Lemma mem_false_suffix (c : ascii) (pre t : string) :
  mem c (pre +:+ t) = false -> startswith (String c "") t = false.
Proof.
  rewrite mem_app. intros [_ H]%orb_false_iff.
  destruct t as [|a t]; [done|]. simpl in *.
  apply orb_false_iff in H as [H _].
  rewrite Ascii.eqb_sym. by rewrite H.
Qed.

(** [find] returns the first position at which the text starts with [p]. *)
Lemma find_app_here (p pre t : string) :
  find p (pre +:+ t) = Some (String.length pre) -> startswith p t = true.
Proof.
  induction pre as [|c pre IH].
  - rewrite app_nil_l. destruct t as [|a t]; simpl.
    + destruct (startswith p ""); [done|]. discriminate.
    + destruct (startswith p (String a t)); [done|].
      destruct (find p t); discriminate.
  - rewrite app_cons. simpl.
    destruct (startswith p (String c (pre +:+ t))); [discriminate|].
    destruct (find p (pre +:+ t)) as [n|] eqn:E; [|discriminate].
    simpl. intros [= ->]. by apply IH.
Qed.

Lemma find_app_before (p : string) (c : ascii) (pre t : string) :
  find p (String c pre +:+ t) = Some (String.length (String c pre)) ->
  startswith p (String c pre +:+ t) = false
  /\ find p (pre +:+ t) = Some (String.length pre).
Proof.
  rewrite app_cons. simpl.
  destruct (startswith p (String c (pre +:+ t))); [discriminate|].
  destruct (find p (pre +:+ t)) as [n|]; [|discriminate].
  simpl. by intros [= ->].
Qed.

(** First-occurrence reading of [find]: no earlier position starts with
    [p]. *)
Lemma find_first (p a b s : string) (n : nat) :
  find p s = Some n -> s = a +:+ p +:+ b -> (n <= String.length a)%nat.
Proof.
  revert a n. induction s as [|c s IH]; intros a n; simpl.
  - destruct (startswith p ""); [intros [= <-]; lia | discriminate].
  - destruct (startswith p (String c s)) eqn:E; [intros [= <-]; lia|].
    destruct (find p s) as [k|] eqn:F; [|discriminate]. simpl. intros [= <-] Hs.
    destruct a as [|c' a].
    + rewrite app_nil_l in Hs. rewrite Hs, startswith_app in E. discriminate.
    + rewrite app_cons in Hs. injection Hs as -> ->.
      specialize (IH a k eq_refl eq_refl). simpl. lia.
Qed.

(** *** [split], [join] and [replace] *)

Lemma drop_app_length (a t : string) : drop (String.length a) (a +:+ t) = t.
Proof. induction a as [|c a IH]; [by destruct t|]. by rewrite app_cons. Qed.

Lemma drop_nil n : drop n "" = "".
Proof. by destruct n. Qed.

Lemma split_scan_nonempty sep k s : split_scan sep k s <> [].
Proof.
  revert k. induction s as [|c s IH]; intros k; [done|]. cbn [split_scan].
  destruct k; [|apply IH].
  destruct (startswith sep (String c s)); [done|].
  specialize (IH O). by destruct (split_scan sep 0 s).
Qed.

Lemma join_cons_char sep (c : ascii) (p : string) (ps : list string) :
  join sep (String c p :: ps) = String c (join sep (p :: ps)).
Proof. by destruct ps. Qed.

Lemma join_cons_nonempty sep (p : string) (ps : list string) :
  ps <> [] -> join sep (p :: ps) = p +:+ sep +:+ join sep ps.
Proof. by destruct ps. Qed.

Lemma join_split_scan sep s k :
  sep <> "" -> join sep (split_scan sep k s) = drop k s.
Proof.
  intros Hsep. revert k. induction s as [|c s IH]; intros k.
  - by rewrite drop_nil.
  - cbn [split_scan]. destruct k as [|k]; [|apply IH].
    destruct (startswith sep (String c s)) eqn:E.
    + rewrite join_cons_nonempty by apply split_scan_nonempty.
      rewrite IH, app_nil_l. apply startswith_inv in E as [t E].
      destruct sep as [|a sep]; [done|]. rewrite app_cons in E.
      injection E as -> ->. cbn [String.length Nat.pred].
      by rewrite drop_app_length.
    + specialize (IH O). pose proof (split_scan_nonempty sep O s) as Hne.
      destruct (split_scan sep 0 s) as [|p ps]; [done|].
      by rewrite join_cons_char, IH.
Qed.

(** The pieces of a split, put together again with the separator, are the
    text: the pieces come in the order of the text. *)
Lemma join_split sep s : sep <> "" -> join sep (split sep s) = s.
Proof. intros H. unfold split. by rewrite join_split_scan. Qed.

(** Replacing a character by nothing removes it. *)
Lemma replace_char_empty (c : ascii) (s : string) :
  replace (String c "") "" s = remove c s.
Proof.
  unfold replace, split. induction s as [|a s IH]; [done|].
  cbn [split_scan remove startswith]. rewrite (Ascii.eqb_sym c a).
  destruct (Ascii.eqb a c).
  - rewrite join_cons_nonempty by apply split_scan_nonempty. apply IH.
  - pose proof (split_scan_nonempty (String c "") O s) as Hne.
    destruct (split_scan (String c "") 0 s) as [|p ps]; [done|].
    by rewrite join_cons_char, IH.
Qed.

Lemma mem_remove_same (c : ascii) (s : string) : mem c (remove c s) = false.
Proof.
  induction s as [|a s IH]; [done|]. simpl.
  destruct (Ascii.eqb a c) eqn:E; [done|]. simpl. by rewrite E.
Qed.

Lemma mem_remove_other (x c : ascii) (s : string) :
  mem x s = false -> mem x (remove c s) = false.
Proof.
  induction s as [|a s IH]; [done|]. simpl.
  intros [Ha Hs]%orb_false_iff. destruct (Ascii.eqb a c); [by apply IH|].
  simpl. by rewrite Ha, IH.
Qed.

(** *** Lines *)





End StrFacts.

(* ===================================================================== *)
(** ** Facts about the matcher                                            *)
(* ===================================================================== *)

Module ReFacts.
Import Str StrFacts.

Lemma all_in_nil cs : all_in cs "".
Proof. intros c. discriminate. Qed.

Lemma all_in_cons cs c s :
  all_in cs (String c s) <-> in_charset cs c = true /\ all_in cs s.
Proof.
  unfold all_in. simpl. split.
  - intros H. split.
    + apply H. by rewrite Ascii.eqb_refl.
    + intros a Ha. apply H. by rewrite Ha, orb_true_r.
  - intros [Hc Hs] a [Ha|Ha]%orb_true_iff.
    + apply Ascii.eqb_eq in Ha. by subst.
    + by apply Hs.
Qed.

Lemma flat_map_nil {A B} (f : A -> list B) (l : list A) :
  (forall x, In x l -> f x = []) -> flat_map f l = [].
Proof.
  induction l as [|x l IH]; [done|]. intros H. simpl.
  rewrite (H x) by (by left). apply IH. intros y Hy. apply H. by right.
Qed.

(** *** Literals *)

Lemma ways_lit_app (p s : string) : ways (lit p) (p +:+ s) = [Way p [] s].
Proof.
  induction p as [|c p IH]; [done|].
  rewrite app_cons. simpl. rewrite Ascii.eqb_refl. simpl.
  by rewrite IH.
Qed.

Lemma ways_lit_fail (p s : string) :
  startswith p s = false -> ways (lit p) s = [].
Proof.
  revert s. induction p as [|c p IH]; intros s; [done|].
  destruct s as [|a s]; [done|]. simpl.
  destruct (Ascii.eqb c a); [|done]. intros H. simpl.
  by rewrite (IH _ H).
Qed.

Lemma ways_lit_seq_app (p : string) (k : regex) (s : string) :
  ways (lit p ^^ k) (p +:+ s) = map (then_way (Way p [] s)) (ways k s).
Proof.
  change (ways (lit p ^^ k) (p +:+ s)) with
    (flat_map (fun w1 => map (then_way w1) (ways k (rest w1)))
       (ways (lit p) (p +:+ s))).
  rewrite ways_lit_app. simpl. by rewrite List.app_nil_r.
Qed.

Lemma ways_lit_seq_fail (p : string) (k : regex) (s : string) :
  startswith p s = false -> ways (lit p ^^ k) s = [].
Proof.
  intros H.
  change (ways (lit p ^^ k) s) with
    (flat_map (fun w1 => map (then_way w1) (ways k (rest w1))) (ways (lit p) s)).
  by rewrite ways_lit_fail.
Qed.

(** *** What a way consumed and what it left *)

Lemma star_ways_split cs s w :
  In w (star_ways cs s) ->
  s = matched w +:+ rest w /\ captured w = [] /\ all_in cs (matched w).
Proof.
  revert w. induction s as [|c s IH]; intros w; simpl.
  - intros [<-|[]]. split_and!; [done..|apply all_in_nil].
  - destruct (in_charset cs c) eqn:E.
    + rewrite in_app_iff, in_map_iff. intros [(w' & <- & Hw')|[<-|[]]].
      * destruct (IH _ Hw') as (Hs & Hc & Ha). simpl.
        split_and!; [by rewrite app_cons, <- Hs | done | by apply all_in_cons].
      * split_and!; [done..|apply all_in_nil].
    + intros [<-|[]]. split_and!; [done..|apply all_in_nil].
Qed.

Lemma ways_split r s w : In w (ways r s) -> s = matched w +:+ rest w.
Proof.
  revert s w. induction r as [|cs|cs|cs|r IH|r1 IH1 r2 IH2]; intros s w; simpl.
  - by intros [<-|[]].
  - destruct s as [|c s]; [done|]. destruct (in_charset cs c); [|done].
    by intros [<-|[]].
  - intros H. by apply star_ways_split in H as [? _].
  - destruct s as [|c s]; [done|]. destruct (in_charset cs c); [|done].
    rewrite in_map_iff. intros (w' & <- & Hw').
    apply star_ways_split in Hw' as [Hs _]. simpl. by rewrite app_cons, <- Hs.
  - rewrite in_map_iff. intros (w' & <- & Hw'). simpl. by apply IH.
  - rewrite in_flat_map. intros (w1 & H1 & H2).
    apply in_map_iff in H2 as (w2 & <- & H2). simpl.
    rewrite app_assoc, <- (IH2 _ _ H2). by apply IH1.
Qed.

(** *** Greedy repetition: the longest way comes first *)

Lemma star_ways_longest cs (a s : string) :
  all_in cs a -> stops cs s ->
  exists tl, star_ways cs (a +:+ s) = Way a [] s :: tl.
Proof.
  induction a as [|c a IH]; intros Ha Hs.
  - rewrite app_nil_l. destruct s as [|c s]; simpl; [by eexists|].
    simpl in Hs. rewrite Hs. by eexists.
  - apply all_in_cons in Ha as [Hc Ha]. destruct (IH Ha Hs) as [tl E].
    rewrite app_cons. simpl. rewrite Hc, E. simpl. by eexists.
Qed.

(** Past a run [a] of [cs] followed by one more character [c] of [cs]:
    first the ways that go beyond [c], then the way that stops before it. *)
Lemma star_ways_past cs (a : string) (c : ascii) (s : string) :
  all_in cs a -> in_charset cs c = true ->
  exists tl,
    star_ways cs (a +:+ String c s)
    = map (prepend (a +:+ String c "")) (star_ways cs s)
      ++ Way a [] (String c s) :: tl.
Proof.
  induction a as [|x a IH]; intros Ha Hc.
  - rewrite app_nil_l. simpl. rewrite Hc. exists []. f_equal.
  - apply all_in_cons in Ha as [Hx Ha]. destruct (IH Ha Hc) as [tl E].
    rewrite app_cons. simpl. rewrite Hx, E.
    rewrite map_app, map_map. simpl.
    exists (map (extend x) tl ++ [Way "" [] (String x (a +:+ String c s))]).
    by rewrite <- List.app_assoc.
Qed.

(** *** A greedy dot-star closed by a square bracket

    The group takes everything up to the last closing bracket the dot can
    reach. *)
Lemma ways_group_dotstar_bracket (mid post : string) :
  mem newline mid = false -> mem "]" post = false ->
  exists tl,
    ways (Group (Star Dot) ^^ lit "]") (mid +:+ String "]" post)
    = Way (mid +:+ "]") [mid] post :: tl.
Proof.
  intros Hmid Hpost.
  assert (Ha : all_in Dot mid).
  { intros c Hc. simpl. destruct (Ascii.eqb_spec c newline) as [->|]; [|done].
    by rewrite Hc in Hmid. }
  destruct (star_ways_past Dot mid "]" post Ha eq_refl) as [tl E].
  set (K := fun w1 => map (then_way w1) (ways (lit "]") (rest w1))).
  set (G := fun w => Way (matched w) (matched w :: captured w) (rest w)).
  change (ways (Group (Star Dot) ^^ lit "]") (mid +:+ String "]" post))
    with (flat_map K (map G (star_ways Dot (mid +:+ String "]" post)))).
  rewrite E, map_app, flat_map_app.
  rewrite flat_map_nil.
  - cbn [map flat_map List.app]. unfold K at 1. cbn [G rest matched captured].
    change (String "]" post) with ("]" +:+ post). rewrite ways_lit_app.
    cbn [map List.app then_way matched captured rest]. by eexists.
  - intros x (w & <- & Hw)%in_map_iff.
    apply in_map_iff in Hw as (w' & <- & Hw').
    apply star_ways_split in Hw' as (Hs & _ & _).
    unfold K. cbn [G prepend rest]. rewrite ways_lit_fail; [done|].
    apply (mem_false_suffix _ (matched w')). by rewrite <- Hs.
Qed.

Lemma ways_bracket_region (p mid post : string) :
  mem newline mid = false -> mem "]" post = false ->
  exists tl,
    ways (lit p ^^ Group (Star Dot) ^^ lit "]") (p +:+ mid +:+ String "]" post)
    = Way (p +:+ mid +:+ "]") [mid] post :: tl.
Proof.
  intros Hmid Hpost.
  destruct (ways_group_dotstar_bracket mid post Hmid Hpost) as [tl E].
  rewrite ways_lit_seq_app, E. simpl. by eexists.
Qed.

(** *** [search] on a pattern that opens with a literal *)

Lemma search_from_eq pos r s :
  search_from pos r s
  = match ways r s with
    | w :: _ => Some (Match pos (matched w) (captured w))
    | [] => match s with
            | EmptyString => None
            | String _ s' => search_from (S pos) r s'
            end
    end.
Proof. by destruct s. Qed.

Lemma search_from_find (p : string) (k : regex) (pre t : string) w tl pos :
  find p (pre +:+ t) = Some (String.length pre) ->
  ways (lit p ^^ k) t = w :: tl ->
  search_from pos (lit p ^^ k) (pre +:+ t)
  = Some (Match (pos + String.length pre) (matched w) (captured w)).
Proof.
  revert pos. induction pre as [|c pre IH]; intros pos Hf Hw.
  - rewrite app_nil_l, search_from_eq, Hw. simpl. by rewrite Nat.add_0_r.
  - apply find_app_before in Hf as [Hno Hf].
    rewrite search_from_eq, (ways_lit_seq_fail _ _ _ Hno), app_cons.
    rewrite (IH (S pos) Hf Hw). simpl. do 2 f_equal. lia.
Qed.

(** *** A greedy run of digits followed by something else *)

Lemma ways_one_seq cs k (c : ascii) (s : string) :
  in_charset cs c = true ->
  ways (One cs ^^ k) (String c s)
  = map (then_way (Way (String c "") [] s)) (ways k s).
Proof.
  intros Hc. cbn [ways]. rewrite Hc. cbn [flat_map rest].
  by rewrite List.app_nil_r.
Qed.

Lemma ways_group_plus_last cs (ds s : string) :
  ds <> "" -> all_in cs ds -> stops cs s ->
  exists tl, ways (Group (Plus cs)) (ds +:+ s) = Way ds [ds] s :: tl.
Proof.
  intros Hne Hds Hs. destruct ds as [|c ds]; [done|].
  apply all_in_cons in Hds as [Hc Hds].
  destruct (star_ways_longest cs ds s Hds Hs) as [tl E].
  rewrite app_cons. cbn [ways]. rewrite Hc, E. cbn [map]. by eexists.
Qed.

Lemma ways_group_plus_first cs k (ds s : string) w tl :
  ds <> "" -> all_in cs ds -> stops cs s -> ways k s = w :: tl ->
  exists tl',
    ways (Group (Plus cs) ^^ k) (ds +:+ s) = then_way (Way ds [ds] s) w :: tl'.
Proof.
  intros Hne Hds Hs Hk.
  destruct (ways_group_plus_last cs ds s Hne Hds Hs) as [tl0 E].
  change (ways (Group (Plus cs) ^^ k) (ds +:+ s)) with
    (flat_map (fun w1 => map (then_way w1) (ways k (rest w1)))
       (ways (Group (Plus cs)) (ds +:+ s))).
  rewrite E. cbn [flat_map rest]. rewrite Hk. cbn [map List.app]. by eexists.
Qed.

(** *** What the groups of a match hold *)

Lemma search_from_way pos r s m :
  search_from pos r s = Some m ->
  exists t w, In w (ways r t) /\ group0 m = matched w /\ groups m = captured w.
Proof.
  revert pos. induction s as [|c s IH]; intros pos; rewrite search_from_eq.
  - destruct (ways r "") as [|w tl] eqn:E; [done|]. intros [= <-].
    exists "", w. rewrite E. split_and!; [by left|done..].
  - destruct (ways r (String c s)) as [|w tl] eqn:E.
    + apply IH.
    + intros [= <-]. exists (String c s), w. rewrite E.
      split_and!; [by left|done..].
Qed.

Lemma ways_seq_inv r1 r2 s w :
  In w (ways (r1 ^^ r2) s) ->
  exists w1 w2, In w1 (ways r1 s) /\ In w2 (ways r2 (rest w1)) /\ w = then_way w1 w2.
Proof.
  simpl. rewrite in_flat_map. intros (w1 & H1 & H2).
  apply in_map_iff in H2 as (w2 & <- & H2). by exists w1, w2.
Qed.

Lemma ways_one_inv cs s w : In w (ways (One cs) s) -> captured w = [].
Proof.
  simpl. destruct s as [|c s]; [done|]. destruct (in_charset cs c); [|done].
  by intros [<-|[]].
Qed.

Lemma ways_lit_inv p s w : In w (ways (lit p) s) -> captured w = [].
Proof.
  revert s w. induction p as [|c p IH]; intros s w.
  - by intros [<-|[]].
  - intros (w1 & w2 & H1 & H2 & ->)%ways_seq_inv. simpl.
    by rewrite (ways_one_inv _ _ _ H1), (IH _ _ H2).
Qed.

Lemma ways_group_plus_inv cs s w :
  In w (ways (Group (Plus cs)) s) ->
  exists g, captured w = [g] /\ g <> "" /\ all_in cs g.
Proof.
  simpl. rewrite in_map_iff. intros (w' & <- & Hw').
  destruct s as [|c s]; [done|]. destruct (in_charset cs c) eqn:E; [|done].
  apply in_map_iff in Hw' as (w'' & <- & Hw'').
  apply star_ways_split in Hw'' as (_ & Hc & Ha). simpl.
  exists (String c (matched w'')). rewrite Hc.
  split_and!; [done..|by apply all_in_cons].
Qed.

End ReFacts.

(* ===================================================================== *)
(** ** Facts about the built-ins                                          *)
(* ===================================================================== *)

Module PyFacts.
Import Str StrFacts ReFacts.

Lemma digit_char (c : ascii) :
  in_charset digit c = true ->
  (exists d, Py.digit_value c = Some d /\ 0 <= d <= 9)
  /\ Py.is_space c = false /\ c <> "+"%char /\ c <> "-"%char.
Proof.
  destruct c as [[] [] [] [] [] [] [] []]; intros H;
    first [ by vm_compute in H
          | split; [eexists; split; [by vm_compute | lia]
                   | split_and!; [by vm_compute | done | done]] ].
Qed.

Lemma lstrip_digits s : all_in digit s -> Py.lstrip s = s.
Proof.
  destruct s as [|c s]; [done|]. intros [Hc _]%all_in_cons.
  apply digit_char in Hc as (_ & Hsp & _). simpl. by rewrite Hsp.
Qed.

Lemma rstrip_digits s : all_in digit s -> Py.rstrip s = s.
Proof.
  induction s as [|c s IH]; [done|]. intros [Hc Hs]%all_in_cons.
  simpl. rewrite (IH Hs). apply digit_char in Hc as (_ & Hsp & _).
  destruct s; [by rewrite Hsp | done].
Qed.

Lemma int_digits_digits s acc b :
  all_in digit s -> 0 <= acc -> (s <> "" \/ b = true) ->
  exists v, Py.int_digits acc b s = Some v /\ 0 <= v.
Proof.
  revert acc b. induction s as [|c s IH]; intros acc b Hs Hacc Hne.
  - destruct Hne as [Hn | ->]; [done|]. by exists acc.
  - apply all_in_cons in Hs as [Hc Hs].
    apply digit_char in Hc as ((d & Hd & Hr) & _). simpl. rewrite Hd.
    apply IH; [done | lia | by right].
Qed.

(** [int] accepts every non-empty run of digits. *)
Lemma int_of_str_digits s :
  digits1 s -> exists v, Py.int_of_str s = Some v /\ 0 <= v.
Proof.
  intros [Hne Hs]. unfold Py.int_of_str.
  rewrite (lstrip_digits _ Hs), (rstrip_digits _ Hs).
  destruct (int_digits_digits s 0 false Hs) as (v & Hv & Hpos); [lia|by left|].
  destruct s as [|c s]; [done|].
  apply all_in_cons in Hs as [Hc _]. apply digit_char in Hc as (_ & _ & Hp & Hm).
  exists v. split; [|done]. rewrite <- Hv.
  destruct c as [[] [] [] [] [] [] [] []]; done.
Qed.

End PyFacts.

(* ===================================================================== *)
(** ** The extractor                                                      *)
(* ===================================================================== *)

Module ExtractorFacts.
Import Str StrFacts ReFacts PyFacts.

Ltac split_ways H :=
  lazymatch type of H with
  | In _ (ways (Seq (lit _) _) _) =>
      let H1 := fresh "Hl" in
      apply ways_seq_inv in H as (? & ? & H1 & H & ->);
      apply ways_lit_inv in H1; split_ways H
  | In _ (ways (Seq (One _) _) _) =>
      let H1 := fresh "Ho" in
      apply ways_seq_inv in H as (? & ? & H1 & H & ->);
      apply ways_one_inv in H1; split_ways H
  | In _ (ways (Seq (Group (Plus _)) _) _) =>
      let H1 := fresh "Hg" in
      apply ways_seq_inv in H as (? & ? & H1 & H & ->);
      apply ways_group_plus_inv in H1 as (? & H1 & ? & ?); split_ways H
  | In _ (ways (Group (Plus _)) _) =>
      apply ways_group_plus_inv in H as (? & H & ? & ?)
  | In _ (ways (lit _) _) => apply ways_lit_inv in H
  end.

(** The four groups of a point are non-empty runs of digits. *)
Lemma point_groups element m :
  search point_re element = Some m ->
  exists g1 g2 g3 g4,
    groups m = [g1; g2; g3; g4]
    /\ digits1 g1 /\ digits1 g2 /\ digits1 g3 /\ digits1 g4.
Proof.
  intros (t & w & Hw & _ & ->)%search_from_way.
  unfold point_re in Hw. split_ways Hw.
  cbn [then_way captured]. rewrite Hl, Ho, Hl0, Hg, Hl1, Hg0, Hl2, Hg1, Hl3, Hw.
  cbn [List.app]. do 4 eexists. by split_and!.
Qed.

(** The group of a year is a non-empty run of digits. *)
Lemma parse_year_digits text year :
  parse_year text = Some year -> digits1 year.
Proof.
  unfold parse_year. destruct (search year_re text) as [m|] eqn:E; [|done].
  intros [= <-]. apply search_from_way in E as (t & w & Hw & _ & Hg).
  unfold year_re in Hw. split_ways Hw.
  unfold group. rewrite Hg. cbn [then_way captured]. rewrite Hl, Hg0, Hw.
  by simpl.
Qed.

Lemma is_digits_digits1 s : is_digits s = true -> digits1 s.
Proof.
  intros H. split; [by destruct s|].
  assert (Ha : all_digits s = true) by (by destruct s). clear H.
  induction s as [|c s IH]; [apply all_in_nil|].
  simpl in Ha. apply andb_true_iff in Ha as [Hc Hs].
  apply all_in_cons. split; [done|by apply IH].
Qed.

Lemma starts_with_digit_stops s : starts_with_digit s = false -> stops digit s.
Proof. by destruct s. Qed.


Lemma traced_0 w : traced 0 w = w.
Proof. destruct w. unfold traced. simpl. by rewrite List.app_nil_r. Qed.

Lemma traced_add n k w : traced n (traced k w) = traced (k + n) w.
Proof.
  unfold traced. simpl. by rewrite <- List.app_assoc, <- replicate_add.
Qed.

(** One turn of the loop of [parse_data]: the element's point is appended
    to both lists, or, for a matched element without a valid date, the
    traceback is printed and the data are left as they were. It never
    raises. *)
Lemma parse_element_step year element data w :
  parse_element year element data w
  = match point_of_element year element with
    | Some (dt, c) =>
        (Ok (Series (dates data ++ [dt]) (counts data ++ [c])), w)
    | None =>
        (Ok data, if discarded year element then traced 1 w else w)
    end.
Proof.
  unfold parse_element, discarded, point_of_element.
  destruct (search point_re element) as [m|] eqn:E; [|done].
  destruct (point_groups _ _ E) as (g1 & g2 & g3 & g4 & Hg & _ & H2 & H3 & H4).
  unfold group. rewrite Hg. cbn [nth].
  destruct (int_of_str_digits _ H2) as (mo & Emo & _).
  destruct (int_of_str_digits _ H3) as (d & Ed & _).
  destruct (int_of_str_digits _ H4) as (c & Ec & _).
  unfold int, datetime_date, bind, try_except_ValueError, print_exc, ret, raise.
  rewrite Emo, Ed, Ec.
  destruct (Py.int_of_str year) as [y|]; [|done].
  by destruct (Py.new_date y (mo + 1) d).
Qed.

Lemma discarded_point year element p :
  point_of_element year element = Some p -> discarded year element = false.
Proof.
  unfold discarded. intros ->. by destruct (search point_re element).
Qed.

(** The loop of [parse_data]. *)
Lemma parse_elements_spec year elements data w :
  for_each elements (parse_element year) data w
  = (Ok (Series
           (dates data ++ (omap (point_of_element year) elements).*1)
           (counts data ++ (omap (point_of_element year) elements).*2)),
     traced (length (List.filter (discarded year) elements)) w).
Proof.
  revert data w. induction elements as [|e elements IH]; intros data w.
  - simpl. rewrite traced_0, !List.app_nil_r. by destruct data.
  - cbn [for_each]. unfold bind. rewrite parse_element_step.
    cbn [omap list_omap List.filter].
    destruct (point_of_element year e) as [[dt c]|] eqn:Ep.
    + rewrite IH, (discarded_point _ _ _ Ep). cbn [dates counts].
      by rewrite <- !List.app_assoc.
    + rewrite IH. destruct (discarded year e); [|done].
      cbn [length]. by rewrite traced_add.
Qed.

(** [parse_data] returns for every text and every year. *)
Lemma parse_data_spec text year w :
  parse_data text year w
  = (Ok (Series (omap (point_of_element year) (elements_of text)).*1
                (omap (point_of_element year) (elements_of text)).*2),
     traced (length (List.filter (discarded year) (elements_of text))) w).
Proof.
  unfold parse_data, elements_of.
  destruct (search data_re text) as [m|].
  - by rewrite parse_elements_spec.
  - simpl. by rewrite traced_0.
Qed.


(** *** Loops *)

Lemma for_each_app {A S} (l1 l2 : list A) (body : A -> S -> M S) (acc : S) w :
  for_each (l1 ++ l2) body acc w
  = match for_each l1 body acc w with
    | (Ok acc', w') => for_each l2 body acc' w'
    | (Raise e, w') => (Raise e, w')
    end.
Proof.
  revert acc w. induction l1 as [|x l1 IH]; intros acc w; [done|].
  cbn [List.app for_each]. unfold bind.
  destruct (body x acc w) as [[acc'|e] w']; [apply IH|done].
Qed.

(** *** Dictionaries *)



Lemma dict_keys_set_in {V} k (v : V) d x :
  In x (Py.dict_keys (Py.dict_set k v d)) <-> x = k \/ In x (Py.dict_keys d).
Proof.
  unfold Py.dict_keys. induction d as [|[k0 v0] d IH]; simpl.
  - intuition congruence.
  - destruct (String.eqb_spec k k0) as [->|Hk]; simpl; [intuition congruence|].
    rewrite IH. intuition congruence.
Qed.




(** *** The loop over the fragments of a river *)

Lemma parse_group_step group years w :
  exists n,
    parse_group group years w
    = (Ok match parse_year group with
          | Some y => Py.dict_set y (series_of group y) years
          | None => years
          end,
       traced n w).
Proof.
  unfold parse_group. destruct (parse_year group) as [y|] eqn:E.
  - destruct (parse_year_digits _ _ E) as [Hne _].
    destruct y as [|c y]; [done|]. cbn [truthy]. unfold bind.
    rewrite parse_data_spec. by eexists.
  - exists O. by rewrite traced_0.
Qed.

Lemma parse_groups_spec groups years w :
  exists n,
    for_each groups parse_group years w
    = (Ok (years_from groups years), traced n w).
Proof.
  revert years w. induction groups as [|g groups IH]; intros years w.
  - exists O. by rewrite traced_0.
  - cbn [for_each years_from]. unfold bind.
    destruct (parse_group_step g years w) as [n ->].
    destruct (IH (match parse_year g with
                  | Some y => Py.dict_set y (series_of g y) years
                  | None => years
                  end) (traced n w)) as [k ->].
    exists (n + k)%nat. by rewrite traced_add.
Qed.



Lemma years_from_keys groups years y :
  In y (Py.dict_keys (years_from groups years)) ->
  In y (Py.dict_keys years) \/ exists g, In g groups /\ parse_year g = Some y.
Proof.
  revert years. induction groups as [|g groups IH]; intros years; [by left|].
  cbn [years_from]. intros [H|(g' & Hg' & Hy)]%IH.
  - destruct (parse_year g) as [y'|] eqn:E; [|by left].
    apply dict_keys_set_in in H as [->|H]; [|by left].
    right. exists g. split; [by left|done].
  - right. exists g'. split; [by right|done].
Qed.



End ExtractorFacts.

(* ===================================================================== *)
(** ** The writer                                                         *)
(* ===================================================================== *)

Module WriterFacts.
Import Str StrFacts ReFacts.



















End WriterFacts.

(* ===================================================================== *)
(** ** Properties of the extractor                                        *)
(* ===================================================================== *)

Import Str StrFacts ReFacts PyFacts ExtractorFacts WriterFacts.







(** C4: on the fragment of the specification, the year parser returns
    ["2021"] and the data parser returns the dates 2021-01-15 and
    2021-01-16 with the counts 42 and 7, in this order. *)
Theorem C4_example_fragment :
  let fragment :=
    "name:'2021',data:[[Date.UTC(2021,0,15),42],[Date.UTC(2021,0,16),7]]" in
  parse_year fragment = Some "2021"
  /\ forall w,
       parse_data fragment "2021" w
       = (Ok (Series [Py.Date 2021 1 15; Py.Date 2021 1 16] [42; 7]), w).
Proof.
  split; [by vm_compute|]. intros w. rewrite parse_data_spec.
  rewrite <- (traced_0 w) at 2. by vm_compute.
Qed.

(** C5: a fragment in which the year pattern does not match leaves the
    mapping of its river as it was, in the loop as on its own; and every
    key of the mapping is the year of one of the fragments. *)
Theorem C5_fragment_without_year_adds_no_entry :
  (forall group,
     parse_year group = None ->
     (forall years w, parse_group group years w = (Ok years, w))
     /\ (forall before after years w,
           for_each (before ++ group :: after) parse_group years w
           = for_each (before ++ after) parse_group years w))
  /\ (forall groups w years w',
        for_each groups parse_group [] w = (Ok years, w') ->
        forall y, In y (Py.dict_keys years) ->
                  exists g, In g groups /\ parse_year g = Some y).
Proof.
  split.
  - intros group Hnone.
    assert (E : forall years w, parse_group group years w = (Ok years, w)).
    { intros years w. unfold parse_group. by rewrite Hnone. }
    split; [done|]. intros before after years w.
    rewrite !for_each_app.
    destruct (for_each before parse_group years w) as [[years'|e] w1]; [|done].
    cbn [for_each]. unfold bind. by rewrite E.
  - intros groups w years w' H y Hy.
    destruct (parse_groups_spec groups [] w) as [n E].
    rewrite E in H. injection H as <- _.
    by apply years_from_keys in Hy as [[]|Hy].
Qed.

Lemma C5_fragment_without_year_adds_no_entry_witness :
  ((forall years w,
      parse_group "data:[[Date.UTC(2021,0,15),42]]" years w = (Ok years, w))
   /\ (forall before after years w,
         for_each (before ++ "data:[[Date.UTC(2021,0,15),42]]" :: after)
           parse_group years w
         = for_each (before ++ after) parse_group years w))
  /\ (exists g,
        In g ["data:[[Date.UTC(2021,0,15),42]]"; "name:'2021',data:[]"]
        /\ parse_year g = Some "2021").
Proof.
  split.
  - apply (proj1 C5_fragment_without_year_adds_no_entry
             "data:[[Date.UTC(2021,0,15),42]]").
    reflexivity.
  - apply (proj2 C5_fragment_without_year_adds_no_entry
             ["data:[[Date.UTC(2021,0,15),42]]"; "name:'2021',data:[]"]
             w0 [("2021", Series [] [])] w0).
    + reflexivity.
    + left. reflexivity.
Defined.

(** The normalized script has no newline. *)
Lemma single_line_no_newline script :
  Str.mem Str.newline (single_line script) = false.
Proof.
  unfold single_line.
  change " " with (String " "%char "").
  rewrite !replace_char_empty.
  do 3 apply mem_remove_other. apply mem_remove_same.
Qed.

(** The region of a text between the first [opening] and the last
    closing square bracket, for a pattern made of [opening], a group of
    any number of [.] and the bracket. *)
Lemma search_bracket_region (opening pre mid post : string) :
  let s := pre +:+ opening +:+ mid +:+ String "]" post in
  Str.mem Str.newline s = false ->
  Str.find opening s = Some (String.length pre) ->
  Str.mem "]" post = false ->
  search (lit opening ^^ Group (Star Dot) ^^ lit "]") s
  = Some (Match (String.length pre) (opening +:+ mid +:+ "]") [mid]).
Proof.
  intros s Hnl Hfind Hpost. subst s.
  assert (Hmid : Str.mem Str.newline mid = false).
  { rewrite !mem_app in Hnl.
    apply orb_false_iff in Hnl as [_ Hnl].
    apply orb_false_iff in Hnl as [_ Hnl].
    by apply orb_false_iff in Hnl as [Hnl _]. }
  destruct (ways_bracket_region opening mid post Hmid Hpost) as [tl E].
  unfold search. by rewrite (search_from_find _ _ _ _ _ _ _ Hfind E).
Qed.

(** C6: in a text without newline, the series region is the text between
    the first [series:] with its opening bracket and the last closing
    bracket, and the data region of a fragment is the text between the
    first [data:] with its opening bracket and the last closing bracket;
    the normalized script is such a text; with two closing brackets the
    region runs to the second, not to the first. *)
Theorem C6_bracket_regions_are_greedy :
  (forall pre mid post w,
     let s := pre +:+ "series:[" +:+ mid +:+ String "]" post in
     Str.mem Str.newline s = false ->
     Str.find "series:[" s = Some (String.length pre) ->
     Str.mem "]" post = false ->
     series_region s w = (Ok mid, w))
  /\ (forall pre mid post year w,
        let s := pre +:+ "data:[" +:+ mid +:+ String "]" post in
        Str.mem Str.newline s = false ->
        Str.find "data:[" s = Some (String.length pre) ->
        Str.mem "]" post = false ->
        search data_re s
        = Some (Match (String.length pre) ("data:[" +:+ mid +:+ "]") [mid])
        /\ parse_data s year w
           = for_each (raw_elements mid) (parse_element year) (Series [] []) w)
  /\ (forall script, Str.mem Str.newline (single_line script) = false)
  /\ (forall w, series_region "series:[a]b]c" w = (Ok "a]b", w))
  /\ (exists m, search data_re "data:[a]b]c" = Some m /\ group m 1 = "a]b").
Proof.
  split_and!.
  - intros pre mid post w s Hnl Hfind Hpost. unfold series_region, series_re.
    pose proof (search_bracket_region "series:[" pre mid post Hnl Hfind Hpost) as E.
    subst s. by rewrite E.
  - intros pre mid post year w s Hnl Hfind Hpost.
    pose proof (search_bracket_region "data:[" pre mid post Hnl Hfind Hpost) as E.
    subst s. split; [exact E|]. unfold parse_data, data_re. by rewrite E.
  - apply single_line_no_newline.
  - done.
  - by eexists.
Qed.

Lemma C6_bracket_regions_are_greedy_witness :
  series_region "x=1;series:[{name:'2021',data:[[Date.UTC(2021,0,15),42]]}];" w0
  = (Ok "{name:'2021',data:[[Date.UTC(2021,0,15),42]]}", w0)
  /\ search data_re "name:'2021',data:[[Date.UTC(2021,0,15),42]]}"
     = Some (Match 12 "data:[[Date.UTC(2021,0,15),42]]"
               ["[Date.UTC(2021,0,15),42]"]).
Proof.
  split.
  - apply (proj1 C6_bracket_regions_are_greedy "x=1;"
             "{name:'2021',data:[[Date.UTC(2021,0,15),42]]}" ";" w0);
      reflexivity.
  - apply (proj1 (proj2 C6_bracket_regions_are_greedy) "name:'2021',"
             "[Date.UTC(2021,0,15),42]" "}" "2021" w0); reflexivity.
Defined.





(* ===================================================================== *)
(** ** Properties of the writer and of [main]                             *)
(* ===================================================================== *)











(* ===================================================================== *)
(** ** Further properties of the extractor                                *)
(* ===================================================================== *)


(** A pattern that opens with a literal matches nowhere in a text that
    does not hold the literal. *)
Lemma search_from_no_literal (p : string) (k : regex) (s : string) pos :
  find p s = None -> search_from pos (lit p ^^ k) s = None.
Proof.
  revert pos. induction s as [|c s IH]; intros pos; cbn [find].
  - destruct (startswith p "") eqn:E; [done|]. intros _.
    by rewrite search_from_eq, (ways_lit_seq_fail _ _ _ E).
  - destruct (startswith p (String c s)) eqn:E; [done|].
    destruct (find p s) eqn:F; [done|]. intros _.
    rewrite search_from_eq, (ways_lit_seq_fail _ _ _ E). by apply IH.
Qed.

(** Without a closing bracket nothing closes the group of a region. *)
Lemma ways_region_no_bracket (p s : string) :
  mem "]" s = false -> ways (lit p ^^ Group (Star Dot) ^^ lit "]") s = [].
Proof.
  intros Hs. cbn [ways]. apply flat_map_nil. intros w1 Hw1.
  pose proof (ways_split _ _ _ Hw1) as E1.
  replace (flat_map _ _) with (@nil way); [done|]. symmetry.
  apply flat_map_nil. intros w2 (w & <- & Hw)%in_map_iff.
  apply star_ways_split in Hw as (E2 & _ & _). cbn [rest].
  rewrite ways_lit_fail; [done|].
  apply (mem_false_suffix _ (matched w1 +:+ matched w)).
  by rewrite app_assoc, <- E2, <- E1.
Qed.

Lemma search_from_no_bracket (p s : string) pos :
  mem "]" s = false ->
  search_from pos (lit p ^^ Group (Star Dot) ^^ lit "]") s = None.
Proof.
  revert pos. induction s as [|c s IH]; intros pos Hs;
    rewrite search_from_eq, (ways_region_no_bracket _ _ Hs); [done|].
  apply IH. cbn [mem] in Hs. by apply orb_false_iff in Hs as [_ ?].
Qed.



(** X2: when the first [name:'] of a text is followed by digits and the
    closing quote and comma, [parse_year] returns these digits. *)
Theorem X2_parse_year_reads_first_marker :
  forall pre Y post,
    let text := pre +:+ "name:'" +:+ Y +:+ "'," +:+ post in
    is_digits Y = true ->
    find "name:'" text = Some (String.length pre) ->
    parse_year text = Some Y.
Proof.
  intros pre Y post text [HY1 HY2]%is_digits_digits1 Hfind. subst text.
  unfold parse_year, search, year_re.
  edestruct (ways_group_plus_first digit (lit "',") Y ("'," +:+ post))
    as [tl E]; [done | done | done | apply ways_lit_app |].
  pose proof (ways_lit_seq_app "name:'" (Group (Plus digit) ^^ lit "',")
                (Y +:+ "'," +:+ post)) as E'.
  rewrite E in E'. cbn [map] in E'.
  by rewrite (search_from_find _ _ _ _ _ _ _ Hfind E').
Qed.

Lemma X2_parse_year_reads_first_marker_witness :
  parse_year ("{" +:+ "name:'" +:+ "2019" +:+ "'," +:+ "name:'2021',data:[]")
  = Some "2019".
Proof.
  apply (X2_parse_year_reads_first_marker "{" "2019" "name:'2021',data:[]");
    reflexivity.
Defined.

(** X3: a fragment without the text [name:'] has no year; a fragment
    without the text [data:] and its bracket, or without any closing
    bracket, has the empty series, and nothing is printed for it. *)
Theorem X3_missing_markers :
  (forall text, find "name:'" text = None -> parse_year text = None)
  /\ (forall text year w,
        find "data:[" text = None \/ mem "]" text = false ->
        parse_data text year w = (Ok (Series [] []), w)).
Proof.
  split.
  - intros text H. unfold parse_year, search, year_re.
    by rewrite search_from_no_literal.
  - intros text year w H. unfold parse_data, search, data_re.
    destruct H as [H|H].
    + by rewrite search_from_no_literal.
    + by rewrite search_from_no_bracket.
Qed.

Lemma X3_missing_markers_witness :
  parse_year "data:[[Date.UTC(2021,0,15),42]]" = None
  /\ parse_data "name:'2021',type:'line'" "2021" w0 = (Ok (Series [] []), w0)
  /\ parse_data "name:'2021',data:[" "2021" w0 = (Ok (Series [] []), w0).
Proof.
  split_and!.
  - apply (proj1 X3_missing_markers). reflexivity.
  - apply (proj2 X3_missing_markers). left. reflexivity.
  - apply (proj2 X3_missing_markers). right. reflexivity.
Defined.

(** What a point of an element is made of. *)
Lemma point_of_element_inv year element dt c :
  point_of_element year element = Some (dt, c) ->
  Py.int_of_str year = Some (Py.year dt)
  /\ Py.valid_date (Py.year dt) (Py.month dt) (Py.day dt) = true
  /\ 0 <= c.
Proof.
  unfold point_of_element.
  destruct (search point_re element) as [m|] eqn:Em; [|done].
  destruct (point_groups _ _ Em) as (g1 & g2 & g3 & g4 & Hg & _ & _ & _ & H4).
  destruct (int_of_str_digits _ H4) as (v & Ev & Hv).
  assert (G4 : group m 4 = g4) by (unfold group; by rewrite Hg).
  rewrite G4, Ev.
  destruct (Py.int_of_str (group m 2)) as [mo|]; [|done].
  destruct (Py.int_of_str (group m 3)) as [d|]; [|done].
  destruct (Py.int_of_str year) as [y|]; [|done].
  unfold Py.new_date. destruct (Py.valid_date y (mo + 1) d) eqn:Ev'; [|done].
  cbn [option_map]. by intros [= <- <-].
Qed.

(** X4: every date of the series [parse_data] returns is a valid
    calendar date whose year is [int(year)], the year the fragment is
    named after; every count is non-negative. *)
Theorem X4_series_holds_valid_dates_of_the_year :
  forall text year w data w',
    parse_data text year w = (Ok data, w') ->
    (forall d, In d (dates data) ->
       Py.int_of_str year = Some (Py.year d)
       /\ Py.valid_date (Py.year d) (Py.month d) (Py.day d) = true)
    /\ (forall c, In c (counts data) -> 0 <= c).
Proof.
  intros text year w data w'. rewrite parse_data_spec. intros [= <- _].
  cbn [dates counts]. split.
  - intros d Hd. apply list_elem_of_In, list_elem_of_fmap in Hd
      as ([d' c] & -> & Hp).
    apply list_elem_of_omap in Hp as (e & _ & Hp).
    by apply point_of_element_inv in Hp as (? & ? & _).
  - intros c Hc. apply list_elem_of_In, list_elem_of_fmap in Hc
      as ([d c'] & -> & Hp).
    apply list_elem_of_omap in Hp as (e & _ & Hp).
    by apply point_of_element_inv in Hp as (_ & _ & ?).
Qed.

Lemma X4_series_holds_valid_dates_of_the_year_witness :
  let data := Series [Py.Date 2021 1 15] [42] in
  (forall d, In d (dates data) ->
     Py.int_of_str "2021" = Some (Py.year d)
     /\ Py.valid_date (Py.year d) (Py.month d) (Py.day d) = true)
  /\ (forall c, In c (counts data) -> 0 <= c).
Proof.
  intros data.
  apply (X4_series_holds_valid_dates_of_the_year
           "data:[[Date.UTC(2000,0,15),42],[Date.UTC(2000,1,30),5]]" "2021"
           w0 data (traced 1 w0)).
  reflexivity.
Defined.



(** *** Normalizing and cutting the script *)

Lemma single_line_keep script :
  single_line script = keep (fun c => negb (is_blank c)) script.
Proof.
  unfold single_line. change " " with (String " "%char "").
  rewrite !replace_char_empty. unfold is_blank.
  induction script as [|c s IH]; [done|]. cbn [remove keep].
  destruct (Ascii.eqb c newline); [exact IH|]. cbn [remove].
  destruct (Ascii.eqb c cr); [exact IH|]. cbn [remove].
  destruct (Ascii.eqb c tab); [exact IH|]. cbn [remove].
  destruct (Ascii.eqb c " "); [exact IH|]. cbn [orb negb]. by rewrite IH.
Qed.

Lemma mem_keep f c s : mem c (keep f s) = true -> f c = true.
Proof.
  induction s as [|a s IH]; [done|]. cbn [keep].
  destruct (f a) eqn:E; [|exact IH]. cbn [mem].
  intros [H|H]%orb_true_iff; [|by apply IH].
  apply Ascii.eqb_eq in H. by subst.
Qed.

Lemma keep_keep f s : keep f (keep f s) = keep f s.
Proof.
  induction s as [|a s IH]; [done|]. cbn [keep].
  destruct (f a) eqn:E; [|exact IH]. cbn [keep]. by rewrite E, IH.
Qed.

(** X6: the normalized script is the script without its newlines,
    carriage returns, tabs and spaces, every other character kept in its
    place; normalizing it again changes nothing. *)
Theorem X6_single_line_removes_the_blanks :
  forall script,
    single_line script = keep (fun c => negb (is_blank c)) script
    /\ (forall c, is_blank c = true -> mem c (single_line script) = false)
    /\ single_line (single_line script) = single_line script.
Proof.
  intros script. split_and!.
  - apply single_line_keep.
  - intros c Hc. rewrite single_line_keep.
    destruct (mem c (keep _ script)) eqn:E; [|done].
    apply mem_keep in E. by rewrite Hc in E.
  - by rewrite !single_line_keep, keep_keep.
Qed.

Lemma X6_single_line_removes_the_blanks_witness :
  mem " " (single_line "series : [ {name:'2021'} ]") = false.
Proof.
  apply (proj1 (proj2 (X6_single_line_removes_the_blanks
                         "series : [ {name:'2021'} ]"))).
  reflexivity.
Defined.

Lemma startswith_app_more (p a r : string) :
  startswith p a = true -> startswith p (a +:+ r) = true.
Proof.
  revert a. induction p as [|c p IH]; intros a; [done|].
  destruct a as [|x a]; [done|]. rewrite app_cons. cbn [startswith].
  destruct (Ascii.eqb c x); [apply IH|done].
Qed.

Lemma split_scan_head_prefix sep s p ps :
  split_scan sep 0 s = p :: ps -> exists r, s = p +:+ r.
Proof.
  revert p ps. induction s as [|c s IH]; intros p ps.
  - intros [= <- _]. by exists "".
  - cbn [split_scan]. destruct (startswith sep (String c s)).
    + intros [= <- _]. by eexists.
    + pose proof (split_scan_nonempty sep O s) as Hne.
      destruct (split_scan sep 0 s) as [|q qs]; [done|].
      intros [= <- _]. destruct (IH q qs eq_refl) as [r ->].
      by exists r.
Qed.

(** No piece of a split holds the separator. *)
Lemma split_scan_no_sep sep s k p :
  sep <> "" -> In p (split_scan sep k s) -> find sep p = None.
Proof.
  intros Hsep. assert (E0 : find sep "" = None) by (by destruct sep).
  revert k p. induction s as [|c s IH]; intros k p.
  - by intros [<-|[]].
  - cbn [split_scan]. destruct k as [|k]; [|apply IH].
    destruct (startswith sep (String c s)) eqn:E.
    + intros [<-|H]; [done|by eapply IH].
    + pose proof (split_scan_nonempty sep O s) as Hne.
      destruct (split_scan sep 0 s) as [|q qs] eqn:Eq; [done|].
      intros [<-|H].
      * cbn [find]. rewrite (IH O q) by (rewrite Eq; by left).
        destruct (startswith sep (String c q)) eqn:E'; [|done].
        destruct (split_scan_head_prefix _ _ _ _ Eq) as [r ->].
        by rewrite <- app_cons, (startswith_app_more _ _ _ E') in E.
      * apply (IH O). rewrite Eq. by right.
Qed.

Lemma mem_join_piece (c : ascii) sep parts p :
  In p parts -> mem c p = true -> mem c (join sep parts) = true.
Proof.
  induction parts as [|q qs IH]; [done|]. intros Hin Hp.
  destruct qs as [|q' qs].
  - destruct Hin as [->|[]]. done.
  - rewrite join_cons_nonempty by done. rewrite !mem_app.
    destruct Hin as [->|Hin]; [by rewrite Hp|].
    by rewrite (IH Hin Hp), !orb_true_r.
Qed.

(** The pieces of a text cut at a separator after a character was
    removed. *)
Lemma clean_pieces (c : ascii) (sep raw : string) :
  sep <> "" ->
  let pieces := split sep (replace (String c "") "" raw) in
  pieces <> []
  /\ join sep pieces = remove c raw
  /\ forall p, In p pieces -> mem c p = false /\ find sep p = None.
Proof.
  intros Hsep pieces. subst pieces. rewrite replace_char_empty.
  split_and!.
  - apply split_scan_nonempty.
  - by apply join_split.
  - intros p Hp. split; [|by eapply split_scan_no_sep].
    destruct (mem c p) eqn:E; [|done].
    apply (mem_join_piece c sep _ _ Hp) in E.
    by rewrite join_split, mem_remove_same in E.
Qed.

(** X7: the fragments of a series region are the pieces of the region,
    braces removed, between the occurrences of a closing brace and comma:
    there is at least one, none holds an opening brace or the separator,
    and joined by the separator they give the region back.  The same holds
    of the elements of a data region, with the square bracket. *)
Theorem X7_fragments_and_elements_are_the_pieces :
  (forall raw,
     raw_groups raw <> []
     /\ join "}," (raw_groups raw) = remove "{" raw
     /\ forall g, In g (raw_groups raw) ->
                  mem "{" g = false /\ find "}," g = None)
  /\ (forall inner,
        raw_elements inner <> []
        /\ join "]," (raw_elements inner) = remove "[" inner
        /\ forall e, In e (raw_elements inner) ->
                     mem "[" e = false /\ find "]," e = None).
Proof.
  split.
  - intros raw. by apply (clean_pieces "{" "},").
  - intros inner. by apply (clean_pieces "[" "],").
Qed.

Lemma X7_fragments_and_elements_are_the_pieces_witness :
  mem "{" "name:'2021',data:[]" = false
  /\ find "}," "name:'2021',data:[]" = None.
Proof.
  apply (proj1 X7_fragments_and_elements_are_the_pieces
           "{name:'2021',data:[]},{name:'2022',data:[]}").
  left. reflexivity.
Defined.

(** The ways of the point pattern from its opening parenthesis on. *)
Lemma point_numbers_ways (Y M D C post : string) :
  digits1 Y -> digits1 M -> digits1 D -> digits1 C -> stops digit post ->
  exists tl,
    ways (lit "UTC(" ^^ Group (Plus digit) ^^ lit "," ^^ Group (Plus digit)
          ^^ lit "," ^^ Group (Plus digit) ^^ lit ")," ^^ Group (Plus digit))
      ("UTC(" +:+ Y +:+ "," +:+ M +:+ "," +:+ D +:+ ")," +:+ C +:+ post)
    = Way ("UTC(" +:+ Y +:+ "," +:+ M +:+ "," +:+ D +:+ ")," +:+ C)
          [Y; M; D; C] post :: tl.
Proof.
  intros [HY1 HY2] [HM1 HM2] [HD1 HD2] [HC1 HC2] Hpost.
  destruct (ways_group_plus_last digit C post HC1 HC2 Hpost) as [t4 E4].
  pose proof (ways_lit_seq_app ")," (Group (Plus digit)) (C +:+ post)) as E3'.
  rewrite E4 in E3'. cbn [map] in E3'.
  edestruct (ways_group_plus_first digit
               (lit ")," ^^ Group (Plus digit)) D (")," +:+ C +:+ post))
    as [t3 E3]; [done | done | done | exact E3' |].
  pose proof (ways_lit_seq_app ","
                (Group (Plus digit) ^^ lit ")," ^^ Group (Plus digit))
                (D +:+ ")," +:+ C +:+ post)) as E2'.
  rewrite E3 in E2'. cbn [map] in E2'.
  edestruct (ways_group_plus_first digit
               (lit "," ^^ Group (Plus digit) ^^ lit ")," ^^ Group (Plus digit))
               M ("," +:+ D +:+ ")," +:+ C +:+ post))
    as [t2 E2]; [done | done | done | exact E2' |].
  pose proof (ways_lit_seq_app ","
                (Group (Plus digit) ^^ lit "," ^^ Group (Plus digit)
                 ^^ lit ")," ^^ Group (Plus digit))
                (M +:+ "," +:+ D +:+ ")," +:+ C +:+ post)) as E1'.
  rewrite E2 in E1'. cbn [map] in E1'.
  edestruct (ways_group_plus_first digit
               (lit "," ^^ Group (Plus digit) ^^ lit "," ^^ Group (Plus digit)
                ^^ lit ")," ^^ Group (Plus digit))
               Y ("," +:+ M +:+ "," +:+ D +:+ ")," +:+ C +:+ post))
    as [t1 E1]; [done | done | done | exact E1' |].
  rewrite ways_lit_seq_app, E1. cbn [map]. by eexists.
Qed.

(** X8: the dot of [Date.UTC] in the point pattern stands for any
    character but the newline: a point written with another character
    between [Date] and [UTC] is read with the same four numbers, and one
    written with a newline there is not read at its start. *)
Theorem X8_point_pattern_accepts_any_separator :
  forall (c : ascii) Y M D C post,
    is_digits Y = true -> is_digits M = true -> is_digits D = true ->
    is_digits C = true -> starts_with_digit post = false ->
    let numbers := "UTC(" +:+ Y +:+ "," +:+ M +:+ "," +:+ D +:+ ")," +:+ C in
    (c <> newline ->
     search point_re ("Date" +:+ String c (numbers +:+ post))
     = Some (Match 0 ("Date" +:+ String c numbers) [Y; M; D; C]))
    /\ (c = newline ->
        ways point_re ("Date" +:+ String c (numbers +:+ post)) = []).
Proof.
  intros c Y M D C post HY HM HD HC Hpost numbers. subst numbers. split.
  - intros Hc.
    destruct (point_numbers_ways Y M D C post) as [tl E];
      [by apply is_digits_digits1.. | by apply starts_with_digit_stops |].
    unfold search, point_re. rewrite search_from_eq, ways_lit_seq_app.
    rewrite !app_assoc. rewrite ways_one_seq, E; [done|].
    cbn [in_charset]. by apply negb_true_iff, Ascii.eqb_neq.
  - intros ->. unfold point_re. rewrite ways_lit_seq_app.
    cbn [ways in_charset]. by rewrite Ascii.eqb_refl.
Qed.

Lemma X8_point_pattern_accepts_any_separator_witness :
  search point_re ("Date" +:+ String "X" (("UTC(" +:+ "2021" +:+ "," +:+ "0"
                     +:+ "," +:+ "15" +:+ ")," +:+ "42") +:+ "]"))
  = Some (Match 0 ("Date" +:+ String "X" ("UTC(" +:+ "2021" +:+ "," +:+ "0"
                     +:+ "," +:+ "15" +:+ ")," +:+ "42"))
            ["2021"; "0"; "15"; "42"]).
Proof.
  apply (proj1 (X8_point_pattern_accepts_any_separator "X" "2021" "0" "15"
                  "42" "]" eq_refl eq_refl eq_refl eq_refl eq_refl)).
  discriminate.
Defined.

(* ===================================================================== *)
(** ** Further properties of a whole run                                  *)
(* ===================================================================== *)













(** *** File names *)

Lemma app_inv_tail_str (a b t : string) : a +:+ t = b +:+ t -> a = b.
Proof.
  revert b. induction a as [|c a IH]; intros b H.
  - destruct b as [|c' b]; [done|]. exfalso.
    apply (f_equal String.length) in H. rewrite app_nil_l, app_cons in H.
    cbn [String.length] in H. rewrite app_length in H. lia.
  - destruct b as [|c' b].
    + exfalso. apply (f_equal String.length) in H.
      rewrite app_nil_l, app_cons in H. cbn [String.length] in H.
      rewrite app_length in H. lia.
    + rewrite !app_cons in H. injection H as -> H. f_equal. by apply IH.
Qed.

(** A text without digits followed by digits is cut in one way only. *)
Lemma name_year_unique (a b x y : string) :
  digit_free a = true -> digit_free b = true ->
  is_digits x = true -> is_digits y = true ->
  a +:+ x = b +:+ y -> a = b /\ x = y.
Proof.
  intros Ha Hb Hx Hy. revert b Hb. induction a as [|c a IH]; intros b Hb H.
  - destruct b as [|c' b]; [done|]. exfalso.
    rewrite app_nil_l, app_cons in H. subst x. cbn in Hx, Hb.
    apply andb_true_iff in Hx as [Hx _]. apply andb_true_iff in Hb as [Hb _].
    by rewrite Hx in Hb.
  - destruct b as [|c' b].
    + exfalso. rewrite app_nil_l, app_cons in H. subst y. cbn in Hy, Ha.
      apply andb_true_iff in Hy as [Hy _]. apply andb_true_iff in Ha as [Ha _].
      by rewrite Hy in Ha.
    + rewrite !app_cons in H. injection H as -> H.
      cbn [digit_free] in Ha, Hb.
      apply andb_true_iff in Ha as [_ Ha]. apply andb_true_iff in Hb as [_ Hb].
      destruct (IH Ha b Hb H) as [-> ->]. done.
Qed.

Lemma RIVERS_digit_free river : In river RIVERS -> digit_free river = true.
Proof.
  assert (H : forallb digit_free RIVERS = true) by (by vm_compute).
  intros Hin. by apply (proj1 (forallb_forall _ _) H).
Qed.

Lemma river_year_names_unique river1 river2 year1 year2 :
  In river1 RIVERS -> In river2 RIVERS ->
  is_digits year1 = true -> is_digits year2 = true ->
  river1 +:+ year1 +:+ ".txt" = river2 +:+ year2 +:+ ".txt" ->
  river1 = river2 /\ year1 = year2.
Proof.
  intros H1 H2 Hy1 Hy2 H.
  rewrite <- !app_assoc in H. apply app_inv_tail_str in H.
  by apply name_year_unique; [apply RIVERS_digit_free..| | |].
Qed.

(** X11: the file names of two series are equal only for the same river
    and the same year: no series of a run is written over another one. *)
Theorem X11_file_names_are_distinct :
  forall river1 river2 year1 year2,
    In river1 RIVERS -> In river2 RIVERS ->
    is_digits year1 = true -> is_digits year2 = true ->
    river1 +:+ year1 +:+ ".txt" = river2 +:+ year2 +:+ ".txt" ->
    river1 = river2 /\ year1 = year2.
Proof. exact river_year_names_unique. Qed.

Lemma X11_file_names_are_distinct_witness :
  "pitealven-sikfors" = "pitealven-sikfors" /\ "2021" = "2021".
Proof.
  apply (X11_file_names_are_distinct "pitealven-sikfors" "pitealven-sikfors"
           "2021" "2021").
  - do 4 right. left. reflexivity.
  - do 4 right. left. reflexivity.
  - reflexivity.
  - reflexivity.
  - reflexivity.
Defined.

(** *** The loops of [main] *)











(** *** A whole run *)









(* ===================================================================== *)
(** ** Reading the file back                                              *)
(* ===================================================================== *)

(** *** Cutting a joined line at its commas *)




(** *** [int] reads what [str] prints *)















(** *** Dates *)












(* ===================================================================== *)
(** ** Edge cases of the extractor                                        *)
(* ===================================================================== *)

Lemma years_from_unnamed groups years :
  Forall (fun g => parse_year g = None) groups ->
  years_from groups years = years.
Proof.
  intros H. revert years. induction H as [|g groups Hg _ IH]; intros years;
    [done|].
  cbn [years_from]. by rewrite Hg.
Qed.

(** X16: when no fragment of a series region has a year, the river gets
    the empty mapping and nothing is printed; this is so for the empty
    region, whose only fragment is the empty text. *)
Theorem X16_region_without_named_fragment :
  (forall groups w,
     Forall (fun g => parse_year g = None) groups ->
     for_each groups parse_group [] w = (Ok [], w))
  /\ raw_groups "" = [""]
  /\ (forall w, for_each (raw_groups "") parse_group [] w = (Ok [], w)).
Proof.
  assert (H : forall groups w,
            Forall (fun g => parse_year g = None) groups ->
            for_each groups parse_group [] w = (Ok [], w)).
  { intros groups w. induction 1 as [|g groups Hg _ IH]; [done|].
    cbn [for_each]. unfold bind, parse_group. by rewrite Hg. }
  split_and!; [exact H|done|]. intros w. apply H. by repeat constructor.
Qed.

Lemma X16_region_without_named_fragment_witness :
  for_each ["data:[[Date.UTC(2021,0,15),42]]"; "type:'line'"] parse_group [] w0
  = (Ok [], w0).
Proof.
  apply (proj1 X16_region_without_named_fragment).
  repeat constructor.
Defined.



